(** * The chained-sdk generator of [packages/sdk-plugin]

    A shallow embedding of [src/utils.ts] (type-name reduction, [lowerFirst])
    and [src/operation.ts] (classification of an operation as root, parent or
    child, the arguments of the generated method, the arguments of the
    requester call and the name of the generated method), followed by the
    properties the specification states about them.

    Strings are [string]s of 8-bit characters: every name that reaches these
    functions is a GraphQL name, made of ASCII letters, digits and
    underscores. *)

From Stdlib Require Import String Ascii List Bool Arith ZArith Lia.
Import ListNotations.
Local Open Scope string_scope.
Set Warnings "-register-all".

(* ================================================================= *)
(** ** The JavaScript primitives the plugin calls *)

Module Js.

(** [ch.toLowerCase()] on one ASCII character: [A]..[Z] move to [a]..[z]. *)
Definition toLowerCaseChar (ch : ascii) : ascii :=
  let n := nat_of_ascii ch in
  if ((65 <=? n) && (n <=? 90))%nat then ascii_of_nat (n + 32) else ch.

(** [str.toLowerCase()]. *)
Fixpoint toLowerCase (str : string) : string :=
  match str with
  | EmptyString => EmptyString
  | String ch rest => String (toLowerCaseChar ch) (toLowerCase rest)
  end.

(** [a === b] on values of type [string | undefined]. *)
Definition strictEq (a b : option string) : bool :=
  match a, b with
  | Some x, Some y => String.eqb x y
  | None, None => true
  | _, _ => false
  end.

(** [str.startsWith(search)]: a comparison of code units, case matters. *)
Definition startsWith (str search : string) : bool := String.prefix search str.

(** [a ?? b]. *)
Definition nullish (a : option string) (b : string) : string :=
  match a with
  | Some x => x
  | None => b
  end.

(** Truthiness of a [string | undefined]: [undefined] and the empty string
    are falsy. *)
Definition truthy (a : option string) : bool :=
  match a with
  | Some (String _ _) => true
  | _ => false
  end.

(** A [string | undefined] interpolated in a template literal. *)
Definition interpolate (a : option string) : string :=
  match a with
  | Some x => x
  | None => "undefined"
  end.

(** What is left of [str] after [key] matched at its start, letters
    compared without regard to case; [None] when it does not match. *)
Fixpoint matchStartIgnoreCase (key str : string) : option string :=
  match key with
  | EmptyString => Some str
  | String k key' =>
      match str with
      | EmptyString => None
      | String ch str' =>
          if Ascii.eqb (toLowerCaseChar k) (toLowerCaseChar ch)
          then matchStartIgnoreCase key' str'
          else None
      end
  end.

(** [str.replace(new RegExp(`^${key}`, "i"), "")] for a [key] that is a
    GraphQL name ([isName] below): such a key holds no character that is
    special in a regular expression, so the expression matches exactly the
    strings that start with [key], case ignored. *)
Definition replaceStartIgnoreCase (key str : string) : string :=
  match matchStartIgnoreCase key str with
  | Some rest => rest
  | None => str
  end.

(** A character of a GraphQL name: [_], a digit or a letter. *)
Definition isNameChar (ch : ascii) : bool :=
  let n := nat_of_ascii ch in
  ((n =? 95) || ((48 <=? n) && (n <=? 57))
   || ((65 <=? n) && (n <=? 90)) || ((97 <=? n) && (n <=? 122)))%nat.

Fixpoint allNameChars (str : string) : bool :=
  match str with
  | EmptyString => true
  | String ch rest => isNameChar ch && allNameChars rest
  end.

(** The value of a [NameNode] as the GraphQL lexer produces it. *)
Definition isName (str : string) : bool :=
  match str with
  | EmptyString => false
  | String _ _ => allNameChars str
  end.


(** [arr[i]] for an integer [i]: [undefined] below zero and from the length
    on. *)
Definition index {A : Type} (arr : list A) (i : Z) : option A :=
  if (i <? 0)%Z then None else nth_error arr (Z.to_nat i).

(** [obj[key]] on an object given by its own entries. *)
Fixpoint getProperty {V : Type} (obj : list (string * V)) (key : string)
  : option V :=
  match obj with
  | [] => None
  | (k, v) :: rest => if String.eqb k key then Some v else getProperty rest key
  end.

(** [Object.keys(obj)]: the entries are listed in the order in which
    [Object.keys] enumerates them. *)
Definition keys {V : Type} (obj : list (string * V)) : list string :=
  map fst obj.

End Js.

(* ================================================================= *)
(** ** The GraphQL syntax tree, as far as the plugin reads it *)

(** [NameNode]: [{ kind: Kind.NAME, value }]. *)
Record NameNode : Type := mkName { value : string }.

(** What [reduceTypeName] and [reduceListType] accept:
    [string | NameNode | NonNullTypeNode | NamedTypeNode | ListTypeNode], and
    [RefOther] for an object of any other kind, which the checker excludes
    and the last branch of both functions still handles. *)
Inductive TypeRef : Type :=
| RefString (s : string)
| RefName (n : NameNode)
| RefNamedType (name : NameNode)
| RefNonNull (type : TypeRef)
| RefList (type : TypeRef)
| RefOther (kind : string).

Inductive OperationTypeNode : Type := query | mutation | subscription.

Record Location : Type := mkLocation { loc_start : nat; loc_end : nat }.

Inductive ValueNode : Type :=
| IntValue (v : string)
| StringValue (v : string)
| BooleanValue (v : bool)
| NullValue
| EnumValue (v : string).

Record DirectiveNode : Type := mkDirective { directive_name : NameNode }.

(** [VariableDefinitionNode]; [var_name] is [variable.name]. *)
Record VariableDefinitionNode : Type := mkVariableDefinition {
  var_name : NameNode;
  var_type : TypeRef;
  var_defaultValue : option ValueNode;
  var_directives : option (list DirectiveNode)
}.

(** [SelectionNode = FieldNode | FragmentSpreadNode | InlineFragmentNode]. *)
Inductive SelectionNode : Type :=
| Field (alias : option NameNode) (name : NameNode)
        (selectionSet : option (list SelectionNode))
| FragmentSpread (name : NameNode)
| InlineFragment (typeCondition : option NameNode)
                 (selectionSet : list SelectionNode).

(** [OperationDefinitionNode]; [op_selectionSet] is
    [selectionSet.selections]. *)
Record OperationDefinitionNode : Type := mkOperationDefinition {
  op_loc : option Location;
  op_operation : OperationTypeNode;
  op_name : option NameNode;
  op_variableDefinitions : option (list VariableDefinitionNode);
  op_directives : option (list DirectiveNode);
  op_selectionSet : list SelectionNode
}.

(* ================================================================= *)
(** ** [src/utils.ts] *)

Module Utils.

Definition UNKNOWN_TYPE_NAME : string := "UNKNOWN_TYPE_NAME".

(** Get the deepest type name from any type node.  The source recurses
    from a named type to its name node and from a name node to its string;
    these two steps are [reduceTypeName_named] and [reduceTypeName_name]
    below. *)
Fixpoint reduceTypeName (type : TypeRef) : string :=
  match type with
  | RefString s => s
  | RefNonNull t => reduceTypeName t
  | RefNamedType name => value name
  | RefName n => value n
  | RefList t => reduceTypeName t
  | RefOther _ => UNKNOWN_TYPE_NAME
  end.

(** Get the list type name from any type node. *)
Fixpoint reduceListType (type : TypeRef) : option string :=
  match type with
  | RefString _ => None
  | RefNonNull t => reduceListType t
  | RefNamedType _ => None
  | RefName _ => None
  | RefList t => Some (reduceTypeName t)
  | RefOther _ => None
  end.

(** Lowercase the first character in a string. *)
Definition lowerFirst (str : option string) : string :=
  match str with
  | Some (String ch rest) => String (Js.toLowerCaseChar ch) rest
  | _ => EmptyString
  end.


(** Return the last element in an array; the parameter defaults to [[]]. *)
Definition getLast {A : Type} (arr : option (list A)) : option A :=
  let arr := match arr with Some l => l | None => [] end in
  Js.index arr (Z.of_nat (List.length arr) - 1).

(** Return the key matching the value in an object.  [strictEqValue] is
    [===] on the values of the record; the record is the list of its
    entries, one per key. *)
Definition getKeyByValue {V : Type} (strictEqValue : V -> V -> bool)
           (obj : list (string * V)) (value : V) : option string :=
  find (fun key =>
          match Js.getProperty obj key with
          | Some v => strictEqValue v value
          | None => false
          end)
       (Js.keys obj).

End Utils.

(** Wrapper layers around a type reference, outermost first. *)
Inductive Wrapper : Type := NonNullLayer | ListLayer.

Fixpoint wrap (layers : list Wrapper) (inner : TypeRef) : TypeRef :=
  match layers with
  | [] => inner
  | NonNullLayer :: rest => RefNonNull (wrap rest inner)
  | ListLayer :: rest => RefList (wrap rest inner)
  end.

Definition isWrapper (type : TypeRef) : bool :=
  match type with
  | RefNonNull _ | RefList _ => true
  | _ => false
  end.

(** graphql declares [NonNullTypeNode.type] as [NamedTypeNode | ListTypeNode]:
    a non-null wrapper never wraps another one.  [doubleNonNull] tells the
    references that break this at their top. *)
Definition doubleNonNull (type : TypeRef) : bool :=
  match type with
  | RefNonNull (RefNonNull _) => true
  | _ => false
  end.

(* ================================================================= *)
(** ** [src/operation.ts] and what it imports *)

(** Type to determine at which level of the sdk an operation is to be
    added. *)
Inductive SdkChainType : Type := root | parent | child.

(** [SdkOperationDefinition extends OperationDefinitionNode]: the fields of
    the node, then [chainType] and the optional [chainKey]. *)
Record SdkOperationDefinition : Type := mkSdkOperationDefinition {
  sdk_loc : option Location;
  sdk_operation : OperationTypeNode;
  sdk_name : option NameNode;
  sdk_variableDefinitions : option (list VariableDefinitionNode);
  sdk_directives : option (list DirectiveNode);
  sdk_selectionSet : list SelectionNode;
  chainType : SdkChainType;
  chainKey : option string
}.

(** An [SdkOperationDefinition] read as the [OperationDefinitionNode] it
    extends. *)
Definition asOperationDefinitionNode (n : SdkOperationDefinition)
  : OperationDefinitionNode :=
  {| op_loc := sdk_loc n;
     op_operation := sdk_operation n;
     op_name := sdk_name n;
     op_variableDefinitions := sdk_variableDefinitions n;
     op_directives := sdk_directives n;
     op_selectionSet := sdk_selectionSet n |}.

(** [SdkOperation] of [visitor.ts]. *)
Record SdkOperation : Type := mkSdkOperation {
  node : SdkOperationDefinition;
  documentVariableName : string;
  operationType : string;
  operationResultType : string;
  operationVariablesTypes : string
}.

(** [SdkPluginConfig]: the two options the visitor passes on. *)
Record SdkPluginConfig : Type := mkSdkPluginConfig {
  typeFile : string;
  documentFile : string
}.

(** [ArgDefinition] of [args.ts], with the fields [operation.ts] and
    [visitor.ts] fill. *)
Record ArgDefinition : Type := mkArg {
  arg_name : string;
  arg_optional : bool;
  arg_type : string;
  arg_description : string;
  arg_defaultName : option string
}.

(** The values [operation.ts] reads from [constants.ts], which is not among
    the sources: they are a parameter of everything below.
    Modelled from the spec: [ID_SCALAR] is the conventional id scalar type
    name that the type of an id-variable reduces to. *)
Record Constants : Type := mkConstants {
  ID_NAME : string;
  ID_TYPE : string;
  ID_SCALAR : string;
  VARIABLE_NAME : string
}.

Definition isFieldKind (s : SelectionNode) : bool :=
  match s with
  | Field _ _ _ => true
  | _ => false
  end.

Definition isNonNullKind (type : TypeRef) : bool :=
  match type with
  | RefNonNull _ => true
  | _ => false
  end.

Definition isSome {A : Type} (x : option A) : bool :=
  match x with
  | Some _ => true
  | None => false
  end.

(** [x ?? []]. *)
Definition orEmpty {A : Type} (x : option (list A)) : list A :=
  match x with
  | Some l => l
  | None => []
  end.

Section Plugin.

Variable c : Constants.

(** [printNamespacedType] of [print.ts] is not among the sources; the
    argument lists below hold for whatever text it prints. *)
Variable printNamespacedType : SdkPluginConfig -> string -> string.

(** *** [variable.ts] *)

(** Modelled from the spec: [isIdVariable] of [variable.ts].  A variable
    is an id-variable iff its name equals the conventional id name and its
    reduced type name equals the conventional id scalar type name. *)
Definition isIdVariable (v : VariableDefinitionNode) : bool :=
  String.eqb (value (var_name v)) (ID_NAME c)
  && String.eqb (Utils.reduceTypeName (var_type v)) (ID_SCALAR c).

(** Modelled from the spec: [hasVariable] of [variable.ts], true iff some
    declared variable has that name. *)
Definition hasVariable (o : SdkOperation) (variableName : string) : bool :=
  existsb (fun v => String.eqb (value (var_name v)) variableName)
          (orEmpty (sdk_variableDefinitions (node o))).

(** Modelled from the spec: [hasOtherVariable] of [variable.ts], true iff
    some declared variable has a different name. *)
Definition hasOtherVariable (o : SdkOperation) (variableName : string)
  : bool :=
  existsb (fun v => negb (String.eqb (value (var_name v)) variableName))
          (orEmpty (sdk_variableDefinitions (node o))).

(** Modelled from the spec: [hasOptionalVariable] of [variable.ts], true
    iff any declared variable has no non-null wrapper or has a default
    value. *)
Definition hasOptionalVariable (o : SdkOperation) : bool :=
  existsb (fun v => negb (isNonNullKind (var_type v))
                    || isSome (var_defaultValue v))
          (orEmpty (sdk_variableDefinitions (node o))).

(** *** [print.ts] *)

(** Modelled from the spec: [printOperationName] of [print.ts].  Parent
    and root methods keep their name with its first character
    lowercased. *)
Definition printOperationName (o : SdkOperation) : string :=
  Utils.lowerFirst (option_map value (sdk_name (node o))).

(** *** [operation.ts] *)

(** The name of the first field of the operation definition. *)
Definition getFirstFieldName (operation : OperationDefinitionNode)
  : option string :=
  match find isFieldKind (op_selectionSet operation) with
  | Some (Field _ name _) => Some (value name)
  | _ => None
  end.

(** The operation has a required id variable. *)
Definition hasIdVariable (o : OperationDefinitionNode) : bool :=
  existsb isIdVariable (orEmpty (op_variableDefinitions o)).

(** The name of the operation. *)
Definition getOperationName (o : OperationDefinitionNode) : option string :=
  option_map value (op_name o).

Definition isParentOperation (o : OperationDefinitionNode) : bool :=
  hasIdVariable o && Js.strictEq (getOperationName o) (getFirstFieldName o).

(** [Boolean(undefined)] is [false]: an operation without a name is no
    child. *)
Definition isChildOperation (o : OperationDefinitionNode) : bool :=
  hasIdVariable o
  && match getOperationName o with
     | Some opName =>
         Js.startsWith opName (Js.nullish (getFirstFieldName o) "")
     | None => false
     end.

(** [{ ...operation, chainType, chainKey }]; the root branch sets no
    [chainKey]. *)
Definition spread (operation : OperationDefinitionNode)
           (type : SdkChainType) (key : option string)
  : SdkOperationDefinition :=
  {| sdk_loc := op_loc operation;
     sdk_operation := op_operation operation;
     sdk_name := op_name operation;
     sdk_variableDefinitions := op_variableDefinitions operation;
     sdk_directives := op_directives operation;
     sdk_selectionSet := op_selectionSet operation;
     chainType := type;
     chainKey := key |}.

(** Add information for chaining to the operation definition. *)
Definition processSdkOperation (operation : OperationDefinitionNode)
  : SdkOperationDefinition :=
  if isParentOperation operation then
    spread operation parent (getFirstFieldName operation)
  else if isChildOperation operation then
    spread operation child (getFirstFieldName operation)
  else
    spread operation root None.

(** Get the chain key if the operation should create an api. *)
Definition getChainParentKey (o : SdkOperation) : option string :=
  match chainType (node o) with
  | parent => chainKey (node o)
  | _ => None
  end.

(** Get the chain key if the operation is nested within an api. *)
Definition getChainChildKey (o : SdkOperation) : option string :=
  match chainType (node o) with
  | child => chainKey (node o)
  | _ => None
  end.

(** Operation id argument definition. *)
Definition idArg (o : SdkOperation) : ArgDefinition :=
  {| arg_name := ID_NAME c;
     arg_optional := false;
     arg_type := ID_TYPE c;
     arg_description :=
       ID_NAME c ++ " to pass into the " ++ operationResultType o;
     arg_defaultName := None |}.

(** Operation variables argument definition. *)
Definition variablesArg (config : SdkPluginConfig) (o : SdkOperation)
  : ArgDefinition :=
  {| arg_name := VARIABLE_NAME c;
     arg_optional := hasOptionalVariable o;
     arg_type := printNamespacedType config (operationVariablesTypes o);
     arg_description :=
       "variables to pass into the " ++ operationResultType o;
     arg_defaultName := None |}.

(** [{ ...variablesArg, type, description }]. *)
Definition variablesWithoutIdArg (config : SdkPluginConfig)
           (o : SdkOperation) : ArgDefinition :=
  {| arg_name := arg_name (variablesArg config o);
     arg_optional := arg_optional (variablesArg config o);
     arg_type :=
       "Omit<" ++ printNamespacedType config (operationVariablesTypes o)
       ++ ", '" ++ ID_NAME c ++ "'>";
     arg_description :=
       "variables without " ++ Js.interpolate (getChainChildKey o) ++ " "
       ++ ID_NAME c ++ " to pass into the " ++ operationResultType o;
     arg_defaultName := arg_defaultName (variablesArg config o) |}.

(** Get the operation args from the operation variables. *)
Definition getOperationArgs (o : SdkOperation) (config : SdkPluginConfig)
  : list ArgDefinition :=
  if hasVariable o (ID_NAME c) then
    let chainChildKey := getChainChildKey o in
    if hasOtherVariable o (ID_NAME c) then
      if Js.truthy chainChildKey
      then [variablesWithoutIdArg config o]
      else [idArg o; variablesWithoutIdArg config o]
    else
      if Js.truthy chainChildKey then [] else [idArg o]
  else
    [variablesArg config o].

(** Get the requester args from the operation variables. *)
Definition getRequesterArgs (o : SdkOperation) : string :=
  if hasVariable o (ID_NAME c) then
    if hasOtherVariable o (ID_NAME c)
    then "{" ++ ID_NAME c ++ ", ..." ++ VARIABLE_NAME c ++ "}"
    else "{" ++ ID_NAME c ++ "}"
  else
    VARIABLE_NAME c.

(** Get the name of the operation.  Chained apis have the chain key
    removed from the name. *)
Definition getSdkOperationName (o : SdkOperation) : string :=
  let nodeName := printOperationName o in
  let chainChildKey := getChainChildKey o in
  if Js.truthy chainChildKey
  then Utils.lowerFirst
         (Some (Js.replaceStartIgnoreCase (Js.interpolate chainChildKey)
                                          nodeName))
  else nodeName.

End Plugin.

(* ================================================================= *)
(** ** The claims in the words of the specification *)

(** [opName] starts with [firstField] as a case-insensitive prefix. *)
Definition startsWithIgnoreCase (opName firstField : string) : bool :=
  Js.startsWith (Js.toLowerCase opName) (Js.toLowerCase firstField).

(** The declared variables of a classified operation. *)
Definition declaredVariables (o : SdkOperation) : list VariableDefinitionNode :=
  orEmpty (sdk_variableDefinitions (node o)).

(** Some declared variable bears the name [name]. *)
Definition someVariableNamed (o : SdkOperation) (name : string) : Prop :=
  exists v, In v (declaredVariables o) /\ value (var_name v) = name.

(** Some declared variable bears another name than [name]. *)
Definition someVariableNotNamed (o : SdkOperation) (name : string) : Prop :=
  exists v, In v (declaredVariables o) /\ value (var_name v) <> name.

(** The operation has an id-variable: a declared variable whose name and
    type both follow the id convention. *)
Definition hasIdVariableOf (c : Constants) (o : SdkOperation) : bool :=
  hasIdVariable c (asOperationDefinitionNode (node o)).

(** The rule for children as the specification words it: among the
    operations that are not parents, the children, keyed by the first field,
    are those with an id-variable whose name starts with the first field's
    name, case ignored. *)
Definition childRuleAsStated (c : Constants) (o : OperationDefinitionNode)
  : Prop :=
  chainType (processSdkOperation c o) <> parent ->
  (chainType (processSdkOperation c o) = child
   /\ chainKey (processSdkOperation c o) = getFirstFieldName o)
  <-> (hasIdVariable c o = true
       /\ exists opName firstField,
            getOperationName o = Some opName
            /\ getFirstFieldName o = Some firstField
            /\ startsWithIgnoreCase opName firstField = true).

(** The invariant of a classified operation as the specification words it:
    the chain key is present iff the role is not root. *)
Definition chainKeyInvariant (n : SdkOperationDefinition) : Prop :=
  isSome (chainKey n) = true <-> chainType n <> root.

(** The operation declares a variable that is not an id-variable. *)
Definition hasVariableBesidesId (c : Constants) (o : SdkOperation) : bool :=
  existsb (fun v => negb (isIdVariable c v)) (declaredVariables o).

(** The requester arguments as the specification words them, with the
    id-variable of the glossary: name and type both follow the convention. *)
Definition requesterArgsAsStated (c : Constants) (o : SdkOperation) : Prop :=
  (hasIdVariableOf c o = true -> hasVariableBesidesId c o = true ->
   getRequesterArgs c o = "{" ++ ID_NAME c ++ ", ..." ++ VARIABLE_NAME c ++ "}")
  /\ (hasIdVariableOf c o = true -> hasVariableBesidesId c o = false ->
      getRequesterArgs c o = "{" ++ ID_NAME c ++ "}")
  /\ (hasIdVariableOf c o = false -> getRequesterArgs c o = VARIABLE_NAME c).

(** The arguments of the generated method as the specification words them,
    again with the id-variable of the glossary. *)
Definition operationArgsAsStated (c : Constants)
           (printNamespacedType : SdkPluginConfig -> string -> string)
           (config : SdkPluginConfig) (o : SdkOperation) : Prop :=
  let args := getOperationArgs c printNamespacedType o config in
  (hasIdVariableOf c o = true -> chainType (node o) <> child ->
   In (idArg c o) args)
  /\ (hasIdVariableOf c o = true -> chainType (node o) = child ->
      ~ In (idArg c o) args
      /\ (hasVariableBesidesId c o = true ->
          args = [variablesWithoutIdArg c printNamespacedType config o]))
  /\ (hasIdVariableOf c o = false ->
      args = [variablesArg c printNamespacedType config o]).

(* ================================================================= *)
(** ** Sample documents *)

(** Values in the shape of [constants.ts], to run the functions on. *)
Definition sampleConstants : Constants :=
  {| ID_NAME := "id";
     ID_TYPE := "string";
     ID_SCALAR := "String";
     VARIABLE_NAME := "variables" |}.

Definition sampleConfig : SdkPluginConfig :=
  {| typeFile := "./_generated_documents"; documentFile := "./_generated_documents" |}.

(** A namespace printer to run [getOperationArgs] with. *)
Definition samplePrintNamespacedType (config : SdkPluginConfig) (type : string)
  : string := "T." ++ type.

(** [$id: <ID_SCALAR>!] *)
Definition idVariableOf (c : Constants) : VariableDefinitionNode :=
  {| var_name := mkName (ID_NAME c);
     var_type := RefNonNull (RefNamedType (mkName (ID_SCALAR c)));
     var_defaultValue := None;
     var_directives := None |}.

(** [$first: Int] *)
Definition firstVariable : VariableDefinitionNode :=
  {| var_name := mkName "first";
     var_type := RefNamedType (mkName "Int");
     var_defaultValue := None;
     var_directives := None |}.

(** [$id: Int!]: named like the id, typed otherwise. *)
Definition intIdVariable : VariableDefinitionNode :=
  {| var_name := mkName "id";
     var_type := RefNonNull (RefNamedType (mkName "Int"));
     var_defaultValue := None;
     var_directives := None |}.

Definition queryOf (name : option string)
           (variables : list VariableDefinitionNode)
           (selections : list SelectionNode) : OperationDefinitionNode :=
  {| op_loc := None;
     op_operation := query;
     op_name := option_map mkName name;
     op_variableDefinitions := Some variables;
     op_directives := Some [];
     op_selectionSet := selections |}.

Definition leaf (name : string) : SelectionNode :=
  Field None (mkName name) None.

(** [query team($id: String!) { team { id name } }] *)
Definition teamQuery (c : Constants) : OperationDefinitionNode :=
  queryOf (Some "team") [idVariableOf c]
          [Field None (mkName "team") (Some [leaf "id"; leaf "name"])].

(** [query teamIssues($id: String!, $first: Int) { team { issues { id } } }] *)
Definition teamIssuesQuery (c : Constants) : OperationDefinitionNode :=
  queryOf (Some "teamIssues") [idVariableOf c; firstVariable]
          [Field None (mkName "team")
                 (Some [Field None (mkName "issues") (Some [leaf "id"])])].

(** [query TeamIssues($id: String!) { team { issues { id } } }] *)
Definition upperTeamIssuesQuery (c : Constants) : OperationDefinitionNode :=
  queryOf (Some "TeamIssues") [idVariableOf c]
          [Field None (mkName "team")
                 (Some [Field None (mkName "issues") (Some [leaf "id"])])].

(** [query teamDetails($id: String!) { ...TeamDetails }]: the only top-level
    selection is a fragment spread. *)
Definition fragmentOnlyQuery (c : Constants) : OperationDefinitionNode :=
  queryOf (Some "teamDetails") [idVariableOf c]
          [FragmentSpread (mkName "TeamDetails")].

(** [query viewer { viewer { id } }] *)
Definition viewerQuery : OperationDefinitionNode :=
  queryOf (Some "viewer") [] [Field None (mkName "viewer") (Some [leaf "id"])].

(** [query issues($first: Int) { issues { id } }] *)
Definition issuesQuery : OperationDefinitionNode :=
  queryOf (Some "issues") [firstVariable]
          [Field None (mkName "issues") (Some [leaf "id"])].

(** [query cycle($id: Int!) { cycle { id } }] *)
Definition intIdQuery : OperationDefinitionNode :=
  queryOf (Some "cycle") [intIdVariable]
          [Field None (mkName "cycle") (Some [leaf "id"])].

(** The [SdkOperation] the visitor records for a classified node. *)
Definition sdkOperationOf (n : SdkOperationDefinition) (resultType : string)
  : SdkOperation :=
  {| node := n;
     documentVariableName := resultType ++ "Document";
     operationType := "Query";
     operationResultType := resultType ++ "Query";
     operationVariablesTypes := resultType ++ "QueryVariables" |}.

Definition classified (o : OperationDefinitionNode) (resultType : string)
  : SdkOperation :=
  sdkOperationOf (processSdkOperation sampleConstants o) resultType.

(** Layered references: [[String!]!], [String!] and [String]. *)
Definition nonNullListOfString : TypeRef :=
  RefNonNull (RefList (RefNonNull (RefNamedType (mkName "String")))).

(** [depth] non-null wrappers around [inner]. *)
Definition nonNulls (depth : nat) (inner : TypeRef) : TypeRef :=
  wrap (repeat NonNullLayer depth) inner.

(** No selection of the list is a field. *)
Definition noFieldIn (selections : list SelectionNode) : bool :=
  forallb (fun s => negb (isFieldKind s)) selections.

(** Some argument of the list bears the name [name]. *)
Definition declaresArg (name : string) (args : list ArgDefinition) : bool :=
  existsb (fun a => String.eqb (arg_name a) name) args.

(** [mutation team($id: String!) @live { team { id name } }], with a
    location. *)
Definition teamMutation (c : Constants) : OperationDefinitionNode :=
  {| op_loc := Some (mkLocation 0 48);
     op_operation := mutation;
     op_name := Some (mkName "team");
     op_variableDefinitions := Some [idVariableOf c];
     op_directives := Some [mkDirective (mkName "live")];
     op_selectionSet :=
       [Field None (mkName "team") (Some [leaf "id"; leaf "name"])] |}.

(** [query teamName($id: String!) { ...Details ... on Query { viewer } t: team { name } }]:
    the first field comes after a fragment spread and an inline fragment,
    and has an alias. *)
Definition aliasedFieldQuery (c : Constants) : OperationDefinitionNode :=
  queryOf (Some "teamName") [idVariableOf c]
          [FragmentSpread (mkName "Details");
           InlineFragment (Some (mkName "Query")) [leaf "viewer"];
           Field (Some (mkName "t")) (mkName "team") (Some [leaf "name"])].

(** A record of string values, to run [getKeyByValue] on. *)
Definition sampleRecord : list (string * string) :=
  [("root", "Root"); ("parent", "Parent"); ("child", "Child")].

(* ================================================================= *)
(** ** Helper lemmas *)

Lemma strictEq_true_iff (a b : option string) :
  Js.strictEq a b = true <-> a = b.
Proof.
  destruct a as [x|], b as [y|]; simpl; split; intro H;
    try discriminate; try reflexivity.
  - apply String.eqb_eq in H. now subst.
  - inversion H. apply String.eqb_refl.
Qed.

Lemma startsWith_append_iff (str search : string) :
  Js.startsWith str search = true <-> exists rest, str = search ++ rest.
Proof.
  unfold Js.startsWith. revert str.
  induction search as [|ch search IH]; intros str.
  - split; [intros _; exists str; reflexivity | intros _; now destruct str].
  - destruct str as [|ch' str]; simpl.
    + split; [discriminate | intros [rest H]; discriminate].
    + destruct (ascii_dec ch ch') as [->|Hne].
      * rewrite IH. split; intros [rest H]; exists rest.
        -- now rewrite H.
        -- now inversion H.
      * split; [discriminate | intros [rest H]; inversion H; congruence].
Qed.

Lemma toLowerCaseChar_idempotent (ch : ascii) :
  Js.toLowerCaseChar (Js.toLowerCaseChar ch) = Js.toLowerCaseChar ch.
Proof.
  destruct ch as [[] [] [] [] [] [] [] []]; reflexivity.
Qed.

Lemma lowerFirst_idempotent (str : option string) :
  Utils.lowerFirst (Some (Utils.lowerFirst str)) = Utils.lowerFirst str.
Proof.
  destruct str as [[|ch rest]|]; simpl; try reflexivity.
  now rewrite toLowerCaseChar_idempotent.
Qed.

(** Stripping a prefix without regard to case does not see whether the first
    character of the name was lowercased before. *)
Lemma lowerFirst_replace_lowerFirst (key name : string) :
  Utils.lowerFirst
    (Some (Js.replaceStartIgnoreCase key (Utils.lowerFirst (Some name))))
  = Utils.lowerFirst (Some (Js.replaceStartIgnoreCase key name)).
Proof.
  destruct key as [|k key].
  - change (Js.replaceStartIgnoreCase "" (Utils.lowerFirst (Some name)))
      with (Utils.lowerFirst (Some name)).
    change (Js.replaceStartIgnoreCase "" name) with name.
    apply lowerFirst_idempotent.
  - destruct name as [|ch name]; [reflexivity|].
    unfold Js.replaceStartIgnoreCase. simpl.
    rewrite toLowerCaseChar_idempotent.
    destruct (Ascii.eqb (Js.toLowerCaseChar k) (Js.toLowerCaseChar ch)).
    + destruct (Js.matchStartIgnoreCase key name); [reflexivity|].
      simpl. now rewrite toLowerCaseChar_idempotent.
    + simpl. now rewrite toLowerCaseChar_idempotent.
Qed.

Lemma hasVariable_true_iff (o : SdkOperation) (name : string) :
  hasVariable o name = true <-> someVariableNamed o name.
Proof.
  unfold hasVariable, someVariableNamed, declaredVariables.
  rewrite existsb_exists. split; intros [v [Hin Hv]]; exists v; split; auto.
  - now apply String.eqb_eq.
  - now apply String.eqb_eq.
Qed.

Lemma hasOtherVariable_true_iff (o : SdkOperation) (name : string) :
  hasOtherVariable o name = true <-> someVariableNotNamed o name.
Proof.
  unfold hasOtherVariable, someVariableNotNamed, declaredVariables.
  rewrite existsb_exists. split; intros [v [Hin Hv]]; exists v; split; auto.
  - apply negb_true_iff in Hv. now apply String.eqb_neq.
  - apply negb_true_iff. now apply String.eqb_neq.
Qed.

Lemma hasVariable_false_iff (o : SdkOperation) (name : string) :
  hasVariable o name = false <->
  forall v, In v (declaredVariables o) -> value (var_name v) <> name.
Proof.
  rewrite <- not_true_iff_false, hasVariable_true_iff.
  unfold someVariableNamed. split.
  - intros H v Hin Hv. apply H. now exists v.
  - intros H [v [Hin Hv]]. now apply (H v).
Qed.

Lemma hasOtherVariable_false_iff (o : SdkOperation) (name : string) :
  hasOtherVariable o name = false <->
  forall v, In v (declaredVariables o) -> value (var_name v) = name.
Proof.
  rewrite <- not_true_iff_false, hasOtherVariable_true_iff.
  unfold someVariableNotNamed. split.
  - intros H v Hin. destruct (string_dec (value (var_name v)) name); auto.
    exfalso. apply H. now exists v.
  - intros H [v [Hin Hv]]. now apply Hv, H.
Qed.

(** The id-variable of the samples is one under every choice of constants. *)
Lemma isIdVariable_idVariableOf (c : Constants) :
  isIdVariable c (idVariableOf c) = true.
Proof.
  unfold isIdVariable, idVariableOf. simpl. now rewrite !String.eqb_refl.
Qed.

Lemma wrap_unwrap (type : TypeRef) :
  exists layers inner, type = wrap layers inner /\ isWrapper inner = false.
Proof.
  induction type as [s|n|name|t IH|t IH|kind].
  - now exists [], (RefString s).
  - now exists [], (RefName n).
  - now exists [], (RefNamedType name).
  - destruct IH as [layers [inner [-> Hin]]].
    now exists (NonNullLayer :: layers), inner.
  - destruct IH as [layers [inner [-> Hin]]].
    now exists (ListLayer :: layers), inner.
  - now exists [], (RefOther kind).
Qed.

(* ================================================================= *)
(** ** Classification ([processSdkOperation]) *)

(** C1.  An operation is classified parent, with the name of its first field
    selection as chain key, if and only if it has an id-variable and its
    declared name is strictly equal ([===]) to the name of its first field
    selection. *)
Theorem parent_classification (c : Constants) (o : OperationDefinitionNode) :
  (chainType (processSdkOperation c o) = parent
   /\ chainKey (processSdkOperation c o) = getFirstFieldName o)
  <-> (hasIdVariable c o = true
       /\ getOperationName o = getFirstFieldName o).
Proof.
  unfold processSdkOperation.
  destruct (isParentOperation c o) eqn:Hparent.
  - unfold isParentOperation in Hparent.
    apply andb_true_iff in Hparent. destruct Hparent as [Hid Heq].
    apply strictEq_true_iff in Heq. simpl. tauto.
  - assert (Hno : ~ (hasIdVariable c o = true
                     /\ getOperationName o = getFirstFieldName o)).
    { intros [Hid Heq]. apply strictEq_true_iff in Heq.
      unfold isParentOperation in Hparent.
      rewrite Hid, Heq in Hparent. discriminate. }
    destruct (isChildOperation c o); simpl; split; intros [H1 H2];
      try discriminate; tauto.
Qed.

(** C2, amended.  For an operation that is not classified parent and that
    selects a first field: it is classified child, with the name of that
    field as chain key, if and only if it has an id-variable and its declared
    name starts with the name of the first field, the case of the letters
    respected. *)
Theorem child_classification (c : Constants) (o : OperationDefinitionNode)
        (firstField : string) :
  chainType (processSdkOperation c o) <> parent ->
  getFirstFieldName o = Some firstField ->
  (chainType (processSdkOperation c o) = child
   /\ chainKey (processSdkOperation c o) = Some firstField)
  <-> (hasIdVariable c o = true
       /\ exists opName rest,
            getOperationName o = Some opName
            /\ opName = firstField ++ rest).
Proof.
  unfold processSdkOperation. intros Hnot Hfield.
  destruct (isParentOperation c o) eqn:Hparent; [now elim Hnot|].
  clear Hnot.
  assert (Hchild : isChildOperation c o = true <->
                   (hasIdVariable c o = true
                    /\ exists opName rest,
                         getOperationName o = Some opName
                         /\ opName = firstField ++ rest)).
  { unfold isChildOperation. rewrite Hfield. simpl Js.nullish.
    rewrite andb_true_iff.
    destruct (getOperationName o) as [opName|].
    - rewrite startsWith_append_iff. split.
      + intros [Hid [rest Hrest]]. split; [exact Hid|]. now exists opName, rest.
      + intros [Hid [opName' [rest [Hname Hrest]]]]. split; [exact Hid|].
        inversion Hname; subst. now exists rest.
    - split.
      + intros [_ H]. discriminate.
      + intros [_ [opName' [rest [Hname _]]]]. discriminate. }
  destruct (isChildOperation c o); simpl.
  - rewrite Hfield. tauto.
  - split.
    + intros [H _]. discriminate.
    + intro H. apply Hchild in H. discriminate.
Qed.

(** The amended rule on [teamIssues], whose first field is [team]. *)
Lemma child_classification_witness :
  chainType (processSdkOperation sampleConstants
                                 (teamIssuesQuery sampleConstants)) = child
  /\ chainKey (processSdkOperation sampleConstants
                                   (teamIssuesQuery sampleConstants))
     = Some "team".
Proof.
  apply (child_classification sampleConstants
           (teamIssuesQuery sampleConstants) "team").
  - simpl. discriminate.
  - reflexivity.
  - split; [reflexivity|]. exists "teamIssues", "Issues". split; reflexivity.
Defined.

(** C2 as stated fails on [TeamIssues] selecting [team]: the name starts
    with the field's name when case is ignored, and [startsWith] compares
    case: the operation is classified root. *)
Lemma child_classification_respects_case :
  ~ childRuleAsStated sampleConstants (upperTeamIssuesQuery sampleConstants).
Proof.
  unfold childRuleAsStated. intro H.
  assert (Hnot : chainType (processSdkOperation sampleConstants
                              (upperTeamIssuesQuery sampleConstants))
                 <> parent) by (simpl; discriminate).
  apply H in Hnot. destruct Hnot as [_ Hback].
  assert (Hchild : chainType (processSdkOperation sampleConstants
                                (upperTeamIssuesQuery sampleConstants))
                   = child).
  { apply Hback. split; [reflexivity|].
    exists "TeamIssues", "team". repeat split; reflexivity. }
  simpl in Hchild. discriminate.
Qed.

(** C3.  The invariant [chainKey present <-> role is not root] is broken by
    an operation with an id-variable and a name whose top-level selections
    hold no field: [isChildOperation] falls back on the empty prefix, which
    every name starts with, and the chain key is the absent first field
    name.  This holds under every choice of constants. *)
Theorem child_without_chain_key (c : Constants) :
  chainType (processSdkOperation c (fragmentOnlyQuery c)) = child
  /\ chainKey (processSdkOperation c (fragmentOnlyQuery c)) = None
  /\ ~ chainKeyInvariant (processSdkOperation c (fragmentOnlyQuery c)).
Proof.
  assert (Hid : hasIdVariable c (fragmentOnlyQuery c) = true).
  { unfold hasIdVariable, fragmentOnlyQuery, queryOf. simpl.
    now rewrite isIdVariable_idVariableOf. }
  assert (Hp : isParentOperation c (fragmentOnlyQuery c) = false).
  { unfold isParentOperation. rewrite Hid. reflexivity. }
  assert (Hc : isChildOperation c (fragmentOnlyQuery c) = true).
  { unfold isChildOperation. rewrite Hid. reflexivity. }
  unfold processSdkOperation, chainKeyInvariant. rewrite Hp, Hc. simpl.
  repeat split.
  intros [_ H]. assert (Hf : false = true) by (apply H; discriminate).
  discriminate.
Qed.

(** C4.  An operation that satisfies the parent predicate and the child
    predicate is classified parent, not child. *)
Theorem parent_before_child (c : Constants) (o : OperationDefinitionNode) :
  isParentOperation c o = true ->
  isChildOperation c o = true ->
  chainType (processSdkOperation c o) = parent
  /\ chainType (processSdkOperation c o) <> child.
Proof.
  intros Hparent _. unfold processSdkOperation. rewrite Hparent. simpl.
  split; [reflexivity | discriminate].
Qed.

(** [team] selecting [team] satisfies both predicates. *)
Lemma parent_before_child_witness :
  isParentOperation sampleConstants (teamQuery sampleConstants) = true
  /\ isChildOperation sampleConstants (teamQuery sampleConstants) = true
  /\ chainType (processSdkOperation sampleConstants
                                    (teamQuery sampleConstants)) = parent.
Proof.
  split; [reflexivity|]. split; [reflexivity|].
  apply (parent_before_child sampleConstants (teamQuery sampleConstants));
    reflexivity.
Defined.

(** C10.  The classified node holds every field of the input node with the
    value the input has; besides them it holds the role and, for a parent or
    a child, the chain key read from the first field.  The function is a
    function of its input: the input node is the same value before and
    after. *)
Theorem processSdkOperation_frame (c : Constants)
        (o : OperationDefinitionNode) :
  asOperationDefinitionNode (processSdkOperation c o) = o
  /\ sdk_loc (processSdkOperation c o) = op_loc o
  /\ sdk_operation (processSdkOperation c o) = op_operation o
  /\ sdk_name (processSdkOperation c o) = op_name o
  /\ sdk_variableDefinitions (processSdkOperation c o)
     = op_variableDefinitions o
  /\ sdk_directives (processSdkOperation c o) = op_directives o
  /\ sdk_selectionSet (processSdkOperation c o) = op_selectionSet o
  /\ chainKey (processSdkOperation c o)
     = match chainType (processSdkOperation c o) with
       | root => None
       | _ => getFirstFieldName o
       end.
Proof.
  unfold processSdkOperation.
  destruct (isParentOperation c o); [|destruct (isChildOperation c o)];
    destruct o; repeat split.
Qed.

(* ================================================================= *)
(** ** The requester call and the generated method *)

(** C5, amended.  The argument of the requester call is decided by the names
    of the declared variables alone: the object literal with the id first
    and the spread of the variables after, when a variable bears the id name
    and another variable bears another name; the object holding just the id,
    when a variable bears the id name and none bears another; the variables
    object itself, when no variable bears the id name. *)
Theorem requester_args (c : Constants) (o : SdkOperation) :
  (someVariableNamed o (ID_NAME c) -> someVariableNotNamed o (ID_NAME c) ->
   getRequesterArgs c o
   = "{" ++ ID_NAME c ++ ", ..." ++ VARIABLE_NAME c ++ "}")
  /\ (someVariableNamed o (ID_NAME c) ->
      ~ someVariableNotNamed o (ID_NAME c) ->
      getRequesterArgs c o = "{" ++ ID_NAME c ++ "}")
  /\ (~ someVariableNamed o (ID_NAME c) ->
      getRequesterArgs c o = VARIABLE_NAME c).
Proof.
  unfold getRequesterArgs. repeat split.
  - intros Hid Hother.
    apply hasVariable_true_iff in Hid.
    apply hasOtherVariable_true_iff in Hother.
    now rewrite Hid, Hother.
  - intros Hid Hother.
    apply hasVariable_true_iff in Hid.
    rewrite <- hasOtherVariable_true_iff in Hother.
    apply not_true_is_false in Hother.
    now rewrite Hid, Hother.
  - intros Hid. rewrite <- hasVariable_true_iff in Hid.
    apply not_true_is_false in Hid. now rewrite Hid.
Qed.

(** The three cases on [teamIssues($id, $first)], [team($id)] and
    [viewer]. *)
Lemma requester_args_witness :
  getRequesterArgs sampleConstants
    (classified (teamIssuesQuery sampleConstants) "TeamIssues")
  = "{id, ...variables}"
  /\ getRequesterArgs sampleConstants
       (classified (teamQuery sampleConstants) "Team") = "{id}"
  /\ getRequesterArgs sampleConstants (classified viewerQuery "Viewer")
     = "variables".
Proof.
  split; [|split].
  - apply (proj1 (requester_args sampleConstants
             (classified (teamIssuesQuery sampleConstants) "TeamIssues"))).
    + exists (idVariableOf sampleConstants). split; [now left | reflexivity].
    + exists firstVariable. split; [right; now left | discriminate].
  - apply (proj1 (proj2 (requester_args sampleConstants
             (classified (teamQuery sampleConstants) "Team")))).
    + exists (idVariableOf sampleConstants). split; [now left | reflexivity].
    + intros [v [[Hv|[]] Hne]]. subst v. now apply Hne.
  - apply (proj2 (proj2 (requester_args sampleConstants
             (classified viewerQuery "Viewer")))).
    intros [v [[] _]].
Defined.

(** C5 as stated fails on [cycle($id: Int!)]: the operation has no
    id-variable, since the type is not the id scalar, and the requester
    still receives [{id}] instead of the variables object. *)
Lemma requester_args_ignore_type :
  ~ requesterArgsAsStated sampleConstants (classified intIdQuery "Cycle").
Proof.
  unfold requesterArgsAsStated. intros [_ [_ H]].
  assert (Habsent : hasIdVariableOf sampleConstants
                      (classified intIdQuery "Cycle") = false)
    by reflexivity.
  apply H in Habsent. vm_compute in Habsent. discriminate.
Qed.

(** C6, amended.  With a variable bearing the id name: a root or parent
    method takes the explicit id parameter first; a child method whose chain
    key is present and not empty takes no id parameter; in both, the
    variables parameter follows exactly when a variable bears another name,
    and its type is [Omit] of the variables type without the id field.
    Without a variable bearing the id name, the method takes the single
    variables parameter typed from the operation's variables type. *)
Theorem operation_args (c : Constants)
        (printNamespacedType : SdkPluginConfig -> string -> string)
        (config : SdkPluginConfig) (o : SdkOperation) :
  (someVariableNamed o (ID_NAME c) -> chainType (node o) <> child ->
   getOperationArgs c printNamespacedType o config
   = idArg c o
     :: (if hasOtherVariable o (ID_NAME c)
         then [variablesWithoutIdArg c printNamespacedType config o]
         else []))
  /\ (forall key,
        someVariableNamed o (ID_NAME c) -> chainType (node o) = child ->
        chainKey (node o) = Some key -> key <> "" ->
        getOperationArgs c printNamespacedType o config
        = if hasOtherVariable o (ID_NAME c)
          then [variablesWithoutIdArg c printNamespacedType config o]
          else [])
  /\ (~ someVariableNamed o (ID_NAME c) ->
      getOperationArgs c printNamespacedType o config
      = [variablesArg c printNamespacedType config o])
  /\ arg_name (idArg c o) = ID_NAME c
  /\ arg_name (variablesWithoutIdArg c printNamespacedType config o)
     = VARIABLE_NAME c
  /\ arg_type (variablesWithoutIdArg c printNamespacedType config o)
     = "Omit<" ++ printNamespacedType config (operationVariablesTypes o)
       ++ ", '" ++ ID_NAME c ++ "'>"
  /\ arg_type (variablesArg c printNamespacedType config o)
     = printNamespacedType config (operationVariablesTypes o).
Proof.
  unfold getOperationArgs, getChainChildKey.
  split; [|split; [|split]].
  - intros Hid Hrole. apply hasVariable_true_iff in Hid. rewrite Hid.
    destruct (chainType (node o)); try (now elim Hrole);
      now destruct (hasOtherVariable o (ID_NAME c)).
  - intros key Hid Hrole Hkey Hne. apply hasVariable_true_iff in Hid.
    rewrite Hid, Hrole, Hkey.
    destruct key as [|ch key]; [now elim Hne|]. reflexivity.
  - intros Hid. rewrite <- hasVariable_true_iff in Hid.
    apply not_true_is_false in Hid. now rewrite Hid.
  - repeat split.
Qed.

(** [team($id)] is a parent and takes the id; [teamIssues($id, $first)] is a
    child of [team] and takes the variables without the id; [viewer] takes
    the variables. *)
Lemma operation_args_witness :
  getOperationArgs sampleConstants samplePrintNamespacedType
    (classified (teamQuery sampleConstants) "Team") sampleConfig
  = [idArg sampleConstants (classified (teamQuery sampleConstants) "Team")]
  /\ getOperationArgs sampleConstants samplePrintNamespacedType
       (classified (teamIssuesQuery sampleConstants) "TeamIssues")
       sampleConfig
     = [variablesWithoutIdArg sampleConstants samplePrintNamespacedType
          sampleConfig
          (classified (teamIssuesQuery sampleConstants) "TeamIssues")]
  /\ getOperationArgs sampleConstants samplePrintNamespacedType
       (classified viewerQuery "Viewer") sampleConfig
     = [variablesArg sampleConstants samplePrintNamespacedType sampleConfig
          (classified viewerQuery "Viewer")].
Proof.
  split; [|split].
  - apply (proj1 (operation_args sampleConstants samplePrintNamespacedType
             sampleConfig (classified (teamQuery sampleConstants) "Team"))).
    + exists (idVariableOf sampleConstants). split; [now left | reflexivity].
    + simpl. discriminate.
  - apply (proj1 (proj2 (operation_args sampleConstants
             samplePrintNamespacedType sampleConfig
             (classified (teamIssuesQuery sampleConstants) "TeamIssues")))
             "team").
    + exists (idVariableOf sampleConstants). split; [now left | reflexivity].
    + reflexivity.
    + reflexivity.
    + discriminate.
  - apply (proj1 (proj2 (proj2 (operation_args sampleConstants
             samplePrintNamespacedType sampleConfig
             (classified viewerQuery "Viewer"))))).
    intros [v [[] _]].
Defined.

(** C6 as stated fails on [cycle($id: Int!)]: the operation has no
    id-variable and its method takes the id parameter, not the variables
    parameter. *)
Lemma operation_args_ignore_type :
  ~ operationArgsAsStated sampleConstants samplePrintNamespacedType
      sampleConfig (classified intIdQuery "Cycle").
Proof.
  unfold operationArgsAsStated. intros [_ [_ H]].
  assert (Habsent : hasIdVariableOf sampleConstants
                      (classified intIdQuery "Cycle") = false)
    by reflexivity.
  apply H in Habsent. vm_compute in Habsent. discriminate.
Qed.

(** C7.  For a child, the generated method is named by the declared name of
    the operation with the chain key stripped from its start, case ignored,
    and the first character of what is left lowercased; for a parent or a
    root the name is the printed operation name, nothing stripped.  The
    chain key is made of the characters of a GraphQL name, as every field
    name is. *)
Theorem sdk_operation_name (o : SdkOperation) :
  (forall key, chainKey (node o) = Some key -> Js.allNameChars key = true) ->
  (forall name,
     chainType (node o) = child -> sdk_name (node o) = Some name ->
     getSdkOperationName o
     = Utils.lowerFirst
         (Some (Js.replaceStartIgnoreCase (Js.nullish (chainKey (node o)) "")
                                          (value name))))
  /\ (chainType (node o) <> child ->
      getSdkOperationName o = printOperationName o).
Proof.
  intros _. unfold getSdkOperationName, getChainChildKey, printOperationName.
  split.
  - intros name Hrole Hname. rewrite Hrole, Hname. simpl option_map.
    destruct (chainKey (node o)) as [[|ch key]|].
    + simpl Js.truthy. cbv iota. simpl Js.nullish.
      now change (Js.replaceStartIgnoreCase "" (value name))
        with (value name).
    + simpl Js.truthy. cbv iota. simpl Js.nullish. simpl Js.interpolate.
      apply lowerFirst_replace_lowerFirst.
    + simpl Js.truthy. cbv iota. simpl Js.nullish.
      now change (Js.replaceStartIgnoreCase "" (value name))
        with (value name).
  - intros Hrole.
    destruct (chainType (node o)); try (now elim Hrole); reflexivity.
Qed.

(** [teamIssues] under the chain key [team] becomes [issues]. *)
Lemma sdk_operation_name_witness :
  getSdkOperationName
    (classified (teamIssuesQuery sampleConstants) "TeamIssues") = "issues".
Proof.
  assert (Hkey : forall key,
             chainKey (node (classified (teamIssuesQuery sampleConstants)
                                        "TeamIssues")) = Some key ->
             Js.allNameChars key = true).
  { intros key H. inversion H. reflexivity. }
  apply (proj1 (sdk_operation_name
                  (classified (teamIssuesQuery sampleConstants) "TeamIssues")
                  Hkey)
               (mkName "teamIssues")); reflexivity.
Defined.

(* ================================================================= *)
(** ** Type references ([reduceTypeName], [reduceListType]) *)

(** The step of the source from a named type to its name node. *)
Lemma reduceTypeName_named (name : NameNode) :
  Utils.reduceTypeName (RefNamedType name)
  = Utils.reduceTypeName (RefName name).
Proof. reflexivity. Qed.

(** The step of the source from a name node to its string. *)
Lemma reduceTypeName_name (n : NameNode) :
  Utils.reduceTypeName (RefName n)
  = Utils.reduceTypeName (RefString (value n)).
Proof. reflexivity. Qed.

Lemma reduceTypeName_wrap (layers : list Wrapper) (inner : TypeRef) :
  Utils.reduceTypeName (wrap layers inner) = Utils.reduceTypeName inner.
Proof.
  induction layers as [|layer layers IH]; [reflexivity|].
  destruct layer; exact IH.
Qed.

(** C8.  Under any stack of non-null and list wrappers, [reduceTypeName]
    returns the innermost name: the string itself, the value of a name node,
    the value of the name of a named type; and the placeholder
    [UNKNOWN_TYPE_NAME] when the innermost node is of another kind.  Every
    reference is such a stack over an innermost node that is no wrapper, so
    the function answers with a string on every input. *)
Theorem reduceTypeName_innermost :
  (forall layers s,
     Utils.reduceTypeName (wrap layers (RefString s)) = s)
  /\ (forall layers n,
        Utils.reduceTypeName (wrap layers (RefName n)) = value n)
  /\ (forall layers name,
        Utils.reduceTypeName (wrap layers (RefNamedType name)) = value name)
  /\ (forall layers kind,
        Utils.reduceTypeName (wrap layers (RefOther kind))
        = "UNKNOWN_TYPE_NAME")
  /\ (forall type,
        exists layers inner,
          type = wrap layers inner /\ isWrapper inner = false
          /\ Utils.reduceTypeName type = Utils.reduceTypeName inner).
Proof.
  repeat split; intros; try (rewrite reduceTypeName_wrap; reflexivity).
  destruct (wrap_unwrap type) as [layers [inner [Heq Hinner]]].
  exists layers, inner. repeat split; auto.
  rewrite Heq. apply reduceTypeName_wrap.
Qed.

(** C9.  For a reference in which no non-null wrapper wraps another one,
    [reduceListType] returns a name exactly when the reference is a list or
    a non-null wrapper around a list, and the name is the reduced name of
    the element type; it returns nothing otherwise, and nothing for a bare
    named type. *)
Theorem reduceListType_list (type : TypeRef) :
  doubleNonNull type = false ->
  (forall elementName,
     Utils.reduceListType type = Some elementName
     <-> exists element,
           (type = RefList element \/ type = RefNonNull (RefList element))
           /\ elementName = Utils.reduceTypeName element)
  /\ (forall name, type = RefNamedType name ->
                   Utils.reduceListType type = None).
Proof.
  intros Hshape. split.
  - intros elementName. split.
    + destruct type as [s|n|name|inner|element|kind]; simpl;
        try discriminate.
      * destruct inner as [s|n|name|inner|element|kind]; simpl;
          try discriminate.
        intros H. inversion H. exists element. split; [now right | reflexivity].
      * intros H. inversion H. exists element. split; [now left | reflexivity].
    + intros [element [[Heq|Heq] Hname]]; subst; reflexivity.
  - intros name Heq. subst. reflexivity.
Qed.

(** [[String!]!] is a non-null wrapper around a list of [String!]. *)
Lemma reduceListType_list_witness :
  doubleNonNull nonNullListOfString = false
  /\ Utils.reduceListType nonNullListOfString = Some "String".
Proof.
  split; [reflexivity|].
  apply (proj1 (reduceListType_list nonNullListOfString eq_refl) "String").
  exists (RefNonNull (RefNamedType (mkName "String"))).
  split; [now right | reflexivity].
Defined.

(* ================================================================= *)
(** ** Further properties of [src/utils.ts] *)





(** X3.  [getLast] returns the last element of a non-empty array, and
    [undefined] for the empty array and for a missing argument: the index
    [-1] is outside of every array. *)
Theorem getLast_last (A : Type) :
  @Utils.getLast A None = None
  /\ @Utils.getLast A (Some []) = None
  /\ forall (front : list A) (x : A),
       Utils.getLast (Some (front ++ [x])%list) = Some x.
Proof.
  repeat split. intros front x. unfold Utils.getLast, Js.index.
  rewrite length_app. simpl List.length.
  replace (Z.of_nat (List.length front + 1) - 1)%Z
    with (Z.of_nat (List.length front)) by lia.
  destruct (Z.ltb_spec (Z.of_nat (List.length front)) 0) as [Hneg|_];
    [lia|].
  rewrite Nat2Z.id, nth_error_app2 by lia.
  now rewrite Nat.sub_diag.
Qed.

Lemma find_first {A : Type} (f : A -> bool) (l : list A) (x : A) :
  find f l = Some x ->
  exists before after,
    l = (before ++ x :: after)%list /\ f x = true
    /\ forall y, In y before -> f y = false.
Proof.
  induction l as [|a l IH]; simpl; [discriminate|].
  destruct (f a) eqn:Hfa.
  - intros H. inversion H; subst. exists [], l. repeat split; auto.
    intros y [].
  - intros H. destruct (IH H) as [before [after [Heq [Hfx Hbefore]]]].
    exists (a :: before), after. subst l. repeat split; auto.
    intros y [Hy|Hy]; [now subst | now apply Hbefore].
Qed.

Lemma getProperty_in {V : Type} (obj : list (string * V)) (k : string)
      (v : V) :
  Js.getProperty obj k = Some v -> In (k, v) obj.
Proof.
  induction obj as [|[k' v'] obj IH]; simpl; [discriminate|].
  destruct (String.eqb_spec k' k) as [->|Hne].
  - intros H. inversion H. now left.
  - intros H. right. now apply IH.
Qed.

Lemma in_getProperty {V : Type} (obj : list (string * V)) (k : string)
      (v : V) :
  NoDup (Js.keys obj) -> In (k, v) obj -> Js.getProperty obj k = Some v.
Proof.
  unfold Js.keys. induction obj as [|[k' v'] obj IH]; simpl; [intros _ []|].
  intros Hnodup [Hhead|Htail].
  - inversion Hhead; subst. now rewrite String.eqb_refl.
  - inversion Hnodup as [|? ? Hnotin Hrest]; subst.
    destruct (String.eqb_spec k' k) as [->|Hne].
    + exfalso. apply Hnotin. apply (in_map fst) in Htail. exact Htail.
    + now apply IH.
Qed.

Lemma getKeyByValue_some {V : Type} (strictEqValue : V -> V -> bool)
      (obj : list (string * V)) (value : V) (k : string) :
  (forall a b, strictEqValue a b = true <-> a = b) ->
  Utils.getKeyByValue strictEqValue obj value = Some k ->
  In (k, value) obj.
Proof.
  intros Heq Hfind. unfold Utils.getKeyByValue in Hfind.
  apply find_some in Hfind. destruct Hfind as [_ Htest].
  destruct (Js.getProperty obj k) as [v|] eqn:Hget; [|discriminate].
  apply Heq in Htest. subst v. now apply getProperty_in.
Qed.

Lemma getKeyByValue_none {V : Type} (strictEqValue : V -> V -> bool)
      (obj : list (string * V)) (value : V) :
  (forall a b, strictEqValue a b = true <-> a = b) ->
  NoDup (Js.keys obj) ->
  (Utils.getKeyByValue strictEqValue obj value = None
   <-> forall k, ~ In (k, value) obj).
Proof.
  intros Heq Hnodup. split.
  - intros Hfind k Hin. unfold Utils.getKeyByValue in Hfind.
    assert (Hk : In k (Js.keys obj)) by (apply (in_map fst) in Hin; exact Hin).
    pose proof (find_none _ _ Hfind k Hk) as Htest. simpl in Htest.
    rewrite (in_getProperty obj k value Hnodup Hin) in Htest.
    assert (Htrue : strictEqValue value value = true) by now apply Heq.
    congruence.
  - intros Hnone.
    destruct (Utils.getKeyByValue strictEqValue obj value) as [k|] eqn:Hfind;
      [|reflexivity].
    exfalso. apply (Hnone k). now apply getKeyByValue_some in Hfind.
Qed.

(** X4.  [getKeyByValue] on a record of distinct keys, with [===] deciding
    equality of values: the key it returns holds the value and no key
    enumerated before it does; it returns [undefined] exactly when no key
    holds the value. *)
Theorem getKeyByValue_first (V : Type) (strictEqValue : V -> V -> bool)
        (obj : list (string * V)) (value : V) :
  (forall a b, strictEqValue a b = true <-> a = b) ->
  NoDup (Js.keys obj) ->
  (forall k,
     Utils.getKeyByValue strictEqValue obj value = Some k ->
     exists before after,
       obj = (before ++ (k, value) :: after)%list
       /\ forall k' v', In (k', v') before -> v' <> value)
  /\ (Utils.getKeyByValue strictEqValue obj value = None
      <-> forall k, ~ In (k, value) obj).
Proof.
  intros Heq Hnodup. split; [|now apply getKeyByValue_none].
  intros k Hfind.
  pose proof (getKeyByValue_some _ _ _ _ Heq Hfind) as Hin.
  unfold Utils.getKeyByValue in Hfind.
  apply find_first in Hfind.
  destruct Hfind as [kbefore [kafter [Hkeys [_ Hbefore]]]].
  unfold Js.keys in Hkeys.
  apply map_eq_app in Hkeys.
  destruct Hkeys as [before [rest [Hobj [Hkb Hrest]]]].
  apply map_eq_cons in Hrest.
  destruct Hrest as [[k0 v0] [after [Hrest' [Hk0 Hka]]]].
  simpl in Hk0. subst k0 rest obj.
  assert (Hv0 : v0 = value).
  { assert (Hget : Js.getProperty (before ++ (k, v0) :: after)%list k = Some v0).
    { apply in_getProperty; [exact Hnodup|].
      apply in_or_app. right. now left. }
    apply (in_getProperty _ _ _ Hnodup) in Hin. congruence. }
  subst v0. exists before, after. split; [reflexivity|].
  intros k' v' Hin' Hv'. subst v'.
  assert (Hk' : In k' kbefore).
  { rewrite <- Hkb. apply (in_map fst) in Hin'. exact Hin'. }
  apply Hbefore in Hk'.
  rewrite (in_getProperty _ k' value Hnodup) in Hk'
    by (apply in_or_app; now left).
  assert (Htrue : strictEqValue value value = true) by now apply Heq.
  congruence.
Qed.

(** On the record of the three chain types, the key of ["Parent"] is
    [parent]. *)
Lemma getKeyByValue_first_witness :
  exists before after,
    sampleRecord = (before ++ ("parent", "Parent") :: after)%list
    /\ forall k' v', In (k', v') before -> v' <> "Parent".
Proof.
  apply (proj1 (getKeyByValue_first string String.eqb sampleRecord "Parent"
                  String.eqb_eq
                  ltac:(repeat constructor; simpl; intuition discriminate))
               "parent").
  reflexivity.
Defined.

Lemma value_held_once {V : Type} (obj : list (string * V)) (k k' : string)
      (v : V) :
  NoDup (map snd obj) -> In (k, v) obj -> In (k', v) obj -> k = k'.
Proof.
  induction obj as [|[k0 v0] obj IH]; simpl; [intros _ []|].
  intros Hnodup Hin Hin'. inversion Hnodup as [|? ? Hnotin Hrest]; subst.
  destruct Hin as [Hin|Hin], Hin' as [Hin'|Hin'].
  - congruence.
  - inversion Hin; subst. exfalso. apply Hnotin.
    apply (in_map snd) in Hin'. exact Hin'.
  - inversion Hin'; subst. exfalso. apply Hnotin.
    apply (in_map snd) in Hin. exact Hin.
  - now apply IH.
Qed.

(** X5.  On a record whose keys are distinct and whose values are distinct,
    [getKeyByValue] is the inverse of the property lookup: it returns [k]
    for [value] exactly when [obj[k]] is [value]. *)
Theorem getKeyByValue_inverse (V : Type) (strictEqValue : V -> V -> bool)
        (obj : list (string * V)) (k : string) (value : V) :
  (forall a b, strictEqValue a b = true <-> a = b) ->
  NoDup (Js.keys obj) ->
  NoDup (map snd obj) ->
  (Utils.getKeyByValue strictEqValue obj value = Some k
   <-> Js.getProperty obj k = Some value).
Proof.
  intros Heq Hkeys Hvalues. split.
  - intros Hfind. apply in_getProperty; [exact Hkeys|].
    now apply getKeyByValue_some in Hfind.
  - intros Hget. apply getProperty_in in Hget.
    destruct (Utils.getKeyByValue strictEqValue obj value) as [k'|] eqn:Hfind.
    + apply getKeyByValue_some in Hfind; [|exact Heq].
      f_equal. now apply (value_held_once obj k' k value).
    + exfalso.
      apply (proj1 (getKeyByValue_none _ _ _ Heq Hkeys) Hfind k Hget).
Qed.

(** Looking up the key of ["Child"] and reading the key back agree on the
    record of the three chain types. *)
Lemma getKeyByValue_inverse_witness :
  Utils.getKeyByValue String.eqb sampleRecord "Child" = Some "child"
  <-> Js.getProperty sampleRecord "child" = Some "Child".
Proof.
  apply (getKeyByValue_inverse string String.eqb sampleRecord "child" "Child"
           String.eqb_eq).
  - repeat constructor; simpl; intuition discriminate.
  - repeat constructor; simpl; intuition discriminate.
Defined.

(** X6.  Whenever [reduceListType] returns a name, it is the name that
    [reduceTypeName] returns for the same reference. *)
Theorem reduceListType_agrees_with_reduceTypeName (type : TypeRef) :
  Utils.reduceListType type = None
  \/ Utils.reduceListType type = Some (Utils.reduceTypeName type).
Proof.
  induction type as [s|n|name|inner IH|element _|kind]; simpl; auto.
Qed.

(** X7.  [reduceListType] looks through any number of non-null wrappers, not
    only one: it returns a name exactly for a list under zero or more
    non-null wrappers, and the name is the reduced name of the element. *)
Theorem reduceListType_under_nonNulls (type : TypeRef) (elementName : string) :
  Utils.reduceListType type = Some elementName
  <-> exists depth element,
        type = nonNulls depth (RefList element)
        /\ elementName = Utils.reduceTypeName element.
Proof.
  split.
  - induction type as [s|n|name|inner IH|element _|kind]; simpl;
      try discriminate.
    + intros H. destruct (IH H) as [depth [element [Heq Hname]]].
      exists (S depth), element. split; [|exact Hname].
      unfold nonNulls in *. simpl. now rewrite Heq.
    + intros H. inversion H. now exists 0, element.
  - intros [depth [element [Heq Hname]]]. subst.
    induction depth as [|depth IH]; [reflexivity|exact IH].
Qed.

(* ================================================================= *)
(** ** Further properties of [src/operation.ts] *)

Lemma startsWith_itself (str : string) : Js.startsWith str str = true.
Proof.
  apply startsWith_append_iff. exists "". induction str as [|ch str IH];
    [reflexivity | simpl; now rewrite <- IH].
Qed.

Lemma append_empty_only (str rest : string) : str ++ rest = str -> rest = "".
Proof.
  induction str as [|ch str IH]; simpl; [auto|].
  intros H. inversion H. now apply IH.
Qed.

Lemma matchStartIgnoreCase_append (key rest : string) :
  Js.matchStartIgnoreCase key (key ++ rest) = Some rest.
Proof.
  induction key as [|k key IH]; simpl; [reflexivity|].
  now rewrite Ascii.eqb_refl.
Qed.

(** The two tests behind the three branches of [processSdkOperation]. *)
Lemma chainType_cases (c : Constants) (o : OperationDefinitionNode) :
  (chainType (processSdkOperation c o) = parent
   <-> isParentOperation c o = true)
  /\ (chainType (processSdkOperation c o) = child
      <-> isParentOperation c o = false /\ isChildOperation c o = true)
  /\ (chainType (processSdkOperation c o) = root
      <-> isParentOperation c o = false /\ isChildOperation c o = false).
Proof.
  unfold processSdkOperation.
  destruct (isParentOperation c o), (isChildOperation c o); simpl;
    repeat split; try discriminate; try reflexivity;
    intros [H1 H2]; discriminate.
Qed.

(** A child that selects a first field is named by that field's name
    followed by something. *)
Lemma child_name_decomposition (c : Constants) (o : OperationDefinitionNode)
      (firstField : string) :
  getFirstFieldName o = Some firstField ->
  (isParentOperation c o = false /\ isChildOperation c o = true
   <-> hasIdVariable c o = true
       /\ exists rest,
            rest <> "" /\ getOperationName o = Some (firstField ++ rest)).
Proof.
  intros Hfield. unfold isParentOperation, isChildOperation.
  rewrite Hfield. simpl Js.nullish.
  destruct (hasIdVariable c o); simpl.
  - destruct (getOperationName o) as [opName|]; simpl.
    + split.
      * intros [Hne Hstarts]. split; [reflexivity|].
        apply startsWith_append_iff in Hstarts. destruct Hstarts as [rest ->].
        exists rest. split; [|reflexivity].
        intros ->. apply String.eqb_neq in Hne. apply Hne.
        clear. induction firstField as [|ch s IH];
          [reflexivity | simpl; now rewrite IH].
      * intros [_ [rest [Hrest Hname]]]. inversion Hname; subst. split.
        -- apply String.eqb_neq. intros H. apply Hrest.
           now apply (append_empty_only firstField).
        -- apply startsWith_append_iff. now exists rest.
    + split; [intros [_ H]; discriminate|].
      intros [_ [rest [_ H]]]. discriminate.
  - split; [intros [_ H]; discriminate | intros [H _]; discriminate].
Qed.

(** X8.  [processSdkOperation] classifies an operation root, and sets no chain
    key, exactly when it has no id-variable, or it selects a first field
    whose name its own name does not start with (an operation without a
    name starts with nothing).  An operation that declares no variables is
    root. *)
Theorem root_classification (c : Constants) (o : OperationDefinitionNode) :
  (chainType (processSdkOperation c o) = root
   <-> hasIdVariable c o = false
       \/ exists firstField,
            getFirstFieldName o = Some firstField
            /\ forall opName, getOperationName o = Some opName ->
                              Js.startsWith opName firstField = false)
  /\ (chainType (processSdkOperation c o) = root ->
      chainKey (processSdkOperation c o) = None)
  /\ (op_variableDefinitions o = None ->
      chainType (processSdkOperation c o) = root).
Proof.
  split; [|split].
  - rewrite (proj2 (proj2 (chainType_cases c o))).
    unfold isParentOperation, isChildOperation.
    destruct (hasIdVariable c o); simpl; [|intuition].
    destruct (getFirstFieldName o) as [firstField|],
             (getOperationName o) as [opName|]; simpl.
    + split.
      * intros [_ Hstarts]. right. exists firstField. split; [reflexivity|].
        intros opName' H. now inversion H; subst.
      * intros [H|[firstField' [Hfield Hstarts]]]; [discriminate|].
        inversion Hfield; subst firstField'.
        specialize (Hstarts opName eq_refl). split; [|exact Hstarts].
        apply String.eqb_neq. intros ->.
        rewrite startsWith_itself in Hstarts. discriminate.
    + split; [|intuition]. intros _. right. exists firstField.
      split; [reflexivity|]. intros opName H. discriminate.
    + split; [intros [_ H]; destruct opName; discriminate|].
      intros [H|[firstField [H _]]]; discriminate.
    + split; [intros [H _]; discriminate|].
      intros [H|[firstField [H _]]]; discriminate.
  - unfold processSdkOperation.
    destruct (isParentOperation c o), (isChildOperation c o); simpl;
      try discriminate; reflexivity.
  - intros Hnone. apply (proj2 (proj2 (chainType_cases c o))).
    unfold isParentOperation, isChildOperation, hasIdVariable.
    rewrite Hnone. split; reflexivity.
Qed.

(** X9.  An operation that passes the parent test passes the child test too,
    as soon as it has a name: the order of the two tests in
    [processSdkOperation] decides every named parent. *)
Theorem parent_passes_child_test (c : Constants)
        (o : OperationDefinitionNode) :
  isParentOperation c o = true ->
  (isChildOperation c o = true <-> getOperationName o <> None).
Proof.
  unfold isParentOperation, isChildOperation. intros Hparent.
  apply andb_true_iff in Hparent. destruct Hparent as [Hid Heq].
  apply strictEq_true_iff in Heq. rewrite Hid, <- Heq. simpl.
  destruct (getOperationName o) as [opName|]; simpl.
  - rewrite startsWith_itself. split; [discriminate | reflexivity].
  - split; [discriminate | intros H; now elim H].
Qed.

(** [team] selecting [team] passes both tests. *)
Lemma parent_passes_child_test_witness :
  isChildOperation sampleConstants (teamQuery sampleConstants) = true
  <-> getOperationName (teamQuery sampleConstants) <> None.
Proof.
  apply (parent_passes_child_test sampleConstants
           (teamQuery sampleConstants)).
  reflexivity.
Defined.

(** X10.  For an operation classified by [processSdkOperation]: the parent key
    and the child key are never both present; the parent key is [key]
    exactly when the operation has an id-variable and both its name and its
    first field are [key]; the child key is [key] exactly when the operation
    has an id-variable, its first field is [key] and its name is [key]
    followed by something. *)
Theorem chain_keys_of_classified (c : Constants)
        (operation : OperationDefinitionNode) (o : SdkOperation) :
  node o = processSdkOperation c operation ->
  (getChainParentKey o = None \/ getChainChildKey o = None)
  /\ (forall key,
        getChainParentKey o = Some key
        <-> hasIdVariable c operation = true
            /\ getOperationName operation = Some key
            /\ getFirstFieldName operation = Some key)
  /\ (forall key,
        getChainChildKey o = Some key
        <-> hasIdVariable c operation = true
            /\ getFirstFieldName operation = Some key
            /\ exists rest,
                 rest <> ""
                 /\ getOperationName operation = Some (key ++ rest)).
Proof.
  intros Hnode. unfold getChainParentKey, getChainChildKey. rewrite Hnode.
  split; [|split].
  - destruct (chainType (processSdkOperation c operation)); auto.
  - intros key. unfold processSdkOperation.
    destruct (isParentOperation c operation) eqn:Hparent; simpl.
    + unfold isParentOperation in Hparent.
      apply andb_true_iff in Hparent. destruct Hparent as [Hid Heq].
      apply strictEq_true_iff in Heq. rewrite Heq. intuition.
    + assert (Hno : ~ (hasIdVariable c operation = true
                       /\ getOperationName operation = Some key
                       /\ getFirstFieldName operation = Some key)).
      { intros [Hid [Hname Hfield]]. unfold isParentOperation in Hparent.
        rewrite Hid, Hname, Hfield in Hparent. simpl in Hparent.
        rewrite String.eqb_refl in Hparent. discriminate. }
      destruct (isChildOperation c operation); simpl;
        split; try discriminate; intros H; now elim Hno.
  - intros key.
    destruct (getFirstFieldName operation) as [firstField|] eqn:Hfield.
    + pose proof (child_name_decomposition c operation firstField Hfield)
        as Hchild.
      unfold processSdkOperation.
      destruct (isParentOperation c operation),
               (isChildOperation c operation); simpl;
        try rewrite Hfield.
      * split; [discriminate|]. intros [Hid [Hkey Hrest]].
        inversion Hkey; subst key.
        destruct (proj2 Hchild (conj Hid Hrest)) as [H1 H2]. congruence.
      * split; [discriminate|]. intros [Hid [Hkey Hrest]].
        inversion Hkey; subst key.
        destruct (proj2 Hchild (conj Hid Hrest)) as [H1 H2]. congruence.
      * split.
        -- intros Hkey. inversion Hkey; subst key.
           destruct (proj1 Hchild (conj eq_refl eq_refl)) as [Hid Hrest].
           repeat split; assumption.
        -- intros [Hid [Hkey Hrest]]. exact Hkey.
      * split; [discriminate|]. intros [Hid [Hkey Hrest]].
        inversion Hkey; subst key.
        destruct (proj2 Hchild (conj Hid Hrest)) as [H1 H2]. congruence.
    + unfold processSdkOperation.
      destruct (isParentOperation c operation),
               (isChildOperation c operation); simpl;
        try rewrite Hfield;
        (split; [discriminate | intros [_ [H _]]; discriminate]).
Qed.

(** [teamIssues] classified: no parent key, the child key [team]. *)
Lemma chain_keys_of_classified_witness :
  getChainChildKey
    (classified (teamIssuesQuery sampleConstants) "TeamIssues") = Some "team".
Proof.
  apply (proj2 (proj2 (chain_keys_of_classified sampleConstants
                         (teamIssuesQuery sampleConstants)
                         (classified (teamIssuesQuery sampleConstants)
                                     "TeamIssues")
                         eq_refl)) "team").
  split; [reflexivity|]. split; [reflexivity|].
  exists "Issues". split; [discriminate | reflexivity].
Defined.

(** X11.  For an operation that [processSdkOperation] classified child under the
    first field [firstField] (a GraphQL name): the name of the operation is
    [firstField] followed by a non-empty rest, and the generated method is
    named by that rest with its first character lowercased; the method name
    is never empty. *)
Theorem child_method_name (c : Constants) (operation : OperationDefinitionNode)
        (o : SdkOperation) (firstField : string) :
  node o = processSdkOperation c operation ->
  chainType (node o) = child ->
  getFirstFieldName operation = Some firstField ->
  Js.allNameChars firstField = true ->
  exists rest,
    rest <> ""
    /\ getOperationName operation = Some (firstField ++ rest)
    /\ getSdkOperationName o = Utils.lowerFirst (Some rest)
    /\ getSdkOperationName o <> "".
Proof.
  intros Hnode Hrole Hfield _.
  assert (Hname : sdk_name (node o) = op_name operation).
  { rewrite Hnode. unfold processSdkOperation.
    now destruct (isParentOperation c operation),
                 (isChildOperation c operation). }
  assert (Hkey : chainKey (node o) = Some firstField).
  { rewrite Hnode in Hrole |- *. revert Hrole. unfold processSdkOperation.
    destruct (isParentOperation c operation),
             (isChildOperation c operation); simpl;
      try discriminate. now rewrite Hfield. }
  pose proof Hrole as Hrole'.
  rewrite Hnode in Hrole. apply (proj1 (proj2 (chainType_cases _ _))) in Hrole.
  apply (child_name_decomposition c operation firstField Hfield) in Hrole.
  destruct Hrole as [_ [rest [Hrest Hop]]].
  exists rest.
  assert (Hmethod : getSdkOperationName o = Utils.lowerFirst (Some rest)).
  { unfold getSdkOperationName, getChainChildKey, printOperationName.
    unfold getOperationName in Hop.
    rewrite Hrole', Hkey, Hname, Hop.
    destruct firstField as [|ch firstField]; [reflexivity|].
    simpl Js.truthy. cbv iota. simpl Js.interpolate.
    rewrite lowerFirst_replace_lowerFirst.
    unfold Js.replaceStartIgnoreCase.
    now rewrite matchStartIgnoreCase_append. }
  repeat split; auto.
  rewrite Hmethod. destruct rest; [now elim Hrest | discriminate].
Qed.

(** [teamIssues], a child of [team], gives the method [issues]. *)
Lemma child_method_name_witness :
  exists rest,
    rest <> ""
    /\ getOperationName (teamIssuesQuery sampleConstants)
       = Some ("team" ++ rest)
    /\ getSdkOperationName
         (classified (teamIssuesQuery sampleConstants) "TeamIssues")
       = Utils.lowerFirst (Some rest)
    /\ getSdkOperationName
         (classified (teamIssuesQuery sampleConstants) "TeamIssues") <> "".
Proof.
  apply (child_method_name sampleConstants (teamIssuesQuery sampleConstants)
           (classified (teamIssuesQuery sampleConstants) "TeamIssues")
           "team"); reflexivity.
Defined.

(** X12.  The requester argument and the parameters of the method agree on the
    variables: when the id and the variables are named differently, the
    requester argument spreads or passes the variables only if the method
    declares the variables parameter, and is the object holding just the id
    otherwise. *)
Theorem requester_uses_declared_variables (c : Constants)
        (printNamespacedType : SdkPluginConfig -> string -> string)
        (config : SdkPluginConfig) (o : SdkOperation) :
  ID_NAME c <> VARIABLE_NAME c ->
  (declaresArg (VARIABLE_NAME c)
               (getOperationArgs c printNamespacedType o config) = true
   /\ (getRequesterArgs c o
       = "{" ++ ID_NAME c ++ ", ..." ++ VARIABLE_NAME c ++ "}"
       \/ getRequesterArgs c o = VARIABLE_NAME c))
  \/ (declaresArg (VARIABLE_NAME c)
                  (getOperationArgs c printNamespacedType o config) = false
      /\ getRequesterArgs c o = "{" ++ ID_NAME c ++ "}").
Proof.
  intros Hdistinct. apply String.eqb_neq in Hdistinct.
  unfold getOperationArgs, getRequesterArgs, declaresArg.
  destruct (hasVariable o (ID_NAME c)),
           (hasOtherVariable o (ID_NAME c)),
           (Js.truthy (getChainChildKey o)) eqn:Hkey;
    try rewrite Hkey; simpl;
    rewrite ?String.eqb_refl, ?Hdistinct; simpl; auto.
Qed.

(** On [teamIssues($id, $first)] the method declares the variables and the
    requester spreads them. *)
Lemma requester_uses_declared_variables_witness :
  (declaresArg "variables"
     (getOperationArgs sampleConstants samplePrintNamespacedType
        (classified (teamIssuesQuery sampleConstants) "TeamIssues")
        sampleConfig) = true
   /\ (getRequesterArgs sampleConstants
         (classified (teamIssuesQuery sampleConstants) "TeamIssues")
       = "{id, ...variables}"
       \/ getRequesterArgs sampleConstants
            (classified (teamIssuesQuery sampleConstants) "TeamIssues")
          = "variables"))
  \/ (declaresArg "variables"
        (getOperationArgs sampleConstants samplePrintNamespacedType
           (classified (teamIssuesQuery sampleConstants) "TeamIssues")
           sampleConfig) = false
      /\ getRequesterArgs sampleConstants
           (classified (teamIssuesQuery sampleConstants) "TeamIssues")
         = "{id}").
Proof.
  apply (requester_uses_declared_variables sampleConstants
           samplePrintNamespacedType sampleConfig
           (classified (teamIssuesQuery sampleConstants) "TeamIssues")).
  simpl. discriminate.
Defined.

(** X13.  The requester argument and the parameters of the method agree on the
    id: when the id and the variables are named differently, a requester
    argument that holds the id belongs to a method whose first parameter is
    the id, or to a child with a non-empty chain key, which declares no id
    and reads it from the enclosing scope; a requester argument that is the
    variables object belongs to a method that declares no id. *)
Theorem requester_id_in_scope (c : Constants)
        (printNamespacedType : SdkPluginConfig -> string -> string)
        (config : SdkPluginConfig) (o : SdkOperation) :
  ID_NAME c <> VARIABLE_NAME c ->
  (getRequesterArgs c o = VARIABLE_NAME c
   /\ declaresArg (ID_NAME c)
                  (getOperationArgs c printNamespacedType o config) = false)
  \/ ((getRequesterArgs c o
       = "{" ++ ID_NAME c ++ ", ..." ++ VARIABLE_NAME c ++ "}"
       \/ getRequesterArgs c o = "{" ++ ID_NAME c ++ "}")
      /\ (hd_error (getOperationArgs c printNamespacedType o config)
          = Some (idArg c o)
          \/ (declaresArg (ID_NAME c)
                (getOperationArgs c printNamespacedType o config) = false
              /\ chainType (node o) = child
              /\ exists key, chainKey (node o) = Some key /\ key <> ""))).
Proof.
  intros Hdistinct.
  assert (Hvi : String.eqb (VARIABLE_NAME c) (ID_NAME c) = false).
  { apply String.eqb_neq. intros H. now apply Hdistinct. }
  unfold getOperationArgs, getRequesterArgs, declaresArg, getChainChildKey.
  destruct (hasVariable o (ID_NAME c)); [|left; simpl; now rewrite Hvi].
  right.
  assert (Hscope :
            Js.truthy match chainType (node o) with
                      | child => chainKey (node o)
                      | _ => None
                      end = true ->
            chainType (node o) = child
            /\ exists key, chainKey (node o) = Some key /\ key <> "").
  { destruct (chainType (node o)); simpl; try discriminate.
    destruct (chainKey (node o)) as [[|ch key]|]; simpl; try discriminate.
    intros _. split; [reflexivity|]. exists (String ch key).
    split; [reflexivity | discriminate]. }
  destruct (Js.truthy match chainType (node o) with
                      | child => chainKey (node o)
                      | _ => None
                      end);
    destruct (hasOtherVariable o (ID_NAME c)); simpl; rewrite ?Hvi;
    (split; [auto|]); auto.
Qed.

(** [teamIssues], a child of [team], sends the id and declares none. *)
Lemma requester_id_in_scope_witness :
  (getRequesterArgs sampleConstants
     (classified (teamIssuesQuery sampleConstants) "TeamIssues")
   = "{id, ...variables}"
   \/ getRequesterArgs sampleConstants
        (classified (teamIssuesQuery sampleConstants) "TeamIssues") = "{id}")
  /\ declaresArg "id"
       (getOperationArgs sampleConstants samplePrintNamespacedType
          (classified (teamIssuesQuery sampleConstants) "TeamIssues")
          sampleConfig) = false.
Proof.
  destruct (requester_id_in_scope sampleConstants samplePrintNamespacedType
              sampleConfig
              (classified (teamIssuesQuery sampleConstants) "TeamIssues"))
    as [[Hrequester _]|[Hrequester _]].
  - simpl. discriminate.
  - vm_compute in Hrequester. discriminate.
  - split; [exact Hrequester | reflexivity].
Defined.

(** X14.  [processSdkOperation] reads the name, the variable definitions and the
    selections of an operation and nothing else: two operations that agree
    on these are classified alike, whatever their kind (query, mutation or
    subscription), their directives and their location. *)
Theorem classification_reads_three_fields (c : Constants)
        (o o' : OperationDefinitionNode) :
  op_name o = op_name o' ->
  op_variableDefinitions o = op_variableDefinitions o' ->
  op_selectionSet o = op_selectionSet o' ->
  chainType (processSdkOperation c o) = chainType (processSdkOperation c o')
  /\ chainKey (processSdkOperation c o) = chainKey (processSdkOperation c o').
Proof.
  intros Hname Hvars Hsel.
  assert (Hp : isParentOperation c o = isParentOperation c o').
  { unfold isParentOperation, hasIdVariable, getOperationName,
      getFirstFieldName. now rewrite Hname, Hvars, Hsel. }
  assert (Hc : isChildOperation c o = isChildOperation c o').
  { unfold isChildOperation, hasIdVariable, getOperationName,
      getFirstFieldName. now rewrite Hname, Hvars, Hsel. }
  assert (Hf : getFirstFieldName o = getFirstFieldName o').
  { unfold getFirstFieldName. now rewrite Hsel. }
  unfold processSdkOperation. rewrite Hp, Hc, Hf.
  destruct (isParentOperation c o'), (isChildOperation c o'); split;
    reflexivity.
Qed.

(** A query and a mutation with the same name, variables and selections. *)
Lemma classification_reads_three_fields_witness :
  chainType (processSdkOperation sampleConstants (teamQuery sampleConstants))
  = chainType (processSdkOperation sampleConstants
                                   (teamMutation sampleConstants))
  /\ chainKey (processSdkOperation sampleConstants
                                   (teamQuery sampleConstants))
     = chainKey (processSdkOperation sampleConstants
                                     (teamMutation sampleConstants)).
Proof.
  apply (classification_reads_three_fields sampleConstants
           (teamQuery sampleConstants) (teamMutation sampleConstants));
    reflexivity.
Defined.

(** X15.  [getFirstFieldName] returns the name, not the alias, of the first
    top-level selection that is a field, passing over the fragment spreads
    and inline fragments before it without looking inside them; it returns
    [undefined] exactly when no top-level selection is a field. *)
Theorem getFirstFieldName_first_field (o : OperationDefinitionNode) :
  (forall before alias name selectionSet after,
     op_selectionSet o
     = (before ++ Field alias name selectionSet :: after)%list ->
     noFieldIn before = true ->
     getFirstFieldName o = Some (value name))
  /\ (getFirstFieldName o = None <-> noFieldIn (op_selectionSet o) = true).
Proof.
  unfold getFirstFieldName, noFieldIn. split.
  - intros before alias name selectionSet after -> Hbefore.
    induction before as [|s before IH]; [reflexivity|].
    simpl in Hbefore. apply andb_true_iff in Hbefore.
    destruct Hbefore as [Hs Hbefore]. apply negb_true_iff in Hs.
    simpl. rewrite Hs. now apply IH.
  - induction (op_selectionSet o) as [|s selections IH]; simpl;
      [split; reflexivity|].
    destruct s as [alias name selectionSet|name|typeCondition selectionSet];
      simpl; [split; discriminate | exact IH | exact IH].
Qed.

(** The first field of [aliasedFieldQuery] is [team], after two selections
    that are no fields. *)
Lemma getFirstFieldName_first_field_witness :
  getFirstFieldName (aliasedFieldQuery sampleConstants) = Some "team".
Proof.
  apply (proj1 (getFirstFieldName_first_field
                  (aliasedFieldQuery sampleConstants))
               [FragmentSpread (mkName "Details");
                InlineFragment (Some (mkName "Query")) [leaf "viewer"]]
               (Some (mkName "t")) (mkName "team") (Some [leaf "name"]) []);
    reflexivity.
Defined.
